(** * discoverOrganizations.py: a model of the script and its properties

    The script reads two environment variables, sends one GET request to a
    GitHub Enterprise Server, decodes the answer as JSON and writes the
    [login] of every organization to [organizations.txt].

    The script is straight-line Python whose every step may raise.  It is
    embedded as a computation in a state-and-exception monad: the state
    holds the disk, the file object with what it has buffered, and the list
    of actions performed so far; an uncaught exception ends the script and
    keeps the state reached, and the interpreter then flushes the file
    object on its way out.  Everything outside the script (the environment,
    the server together with [requests], the permissions, the encoding of
    the locale, the room on the disk, the buffering of the file object) is
    a field of [World]. *)

From Stdlib Require Import String Ascii List ZArith Bool Arith Lia PrimFloat.
Import ListNotations.
Open Scope string_scope.
Local Set Warnings "-register-all".

(** ** Python values *)

(** The values [response.json()] and [os.environ.get] can return.  A [str]
    is a [string]; a [dict] keeps its insertion order, which is the order
    in which iteration yields its keys. *)
Inductive value : Type :=
| VNone
| VBool (b : bool)
| VInt (z : Z)
| VFloat (x : float)
| VStr (s : string)
| VList (l : list value)
| VDict (d : list (string * value)).

(** The exceptions the script can end with, each named by the class the
    failing step raises. *)
Inductive exn : Type :=
| TypeError          (* wrong operand, argument, iteration or subscript *)
| KeyError           (* missing dict key *)
| ValueError         (* I/O operation on a closed file *)
| UnicodeEncodeError (* [write] of a text the file's encoding cannot encode *)
| JSONDecodeError    (* [response.json()]: the body is not JSON *)
| RequestException   (* [requests.get]: connection, DNS, TLS, invalid URL *)
| OSError.           (* the system refuses an open or a flush *)

(** The classes are not disjoint: [isinstance e c] tells whether a handler
    for [c] would take [e].  The decoding error of [requests] is a
    [RequestException] and a [ValueError]; every [RequestException] is an
    [OSError]; a [UnicodeEncodeError] is a [ValueError]. *)
Definition isinstance (e c : exn) : bool :=
  match e, c with
  | TypeError, TypeError => true
  | KeyError, KeyError => true
  | ValueError, ValueError => true
  | UnicodeEncodeError, (UnicodeEncodeError | ValueError) => true
  | JSONDecodeError,
    (JSONDecodeError | RequestException | OSError | ValueError) => true
  | RequestException, (RequestException | OSError) => true
  | OSError, OSError => true
  | _, _ => false
  end.

(** [d.get(k)] / [d[k]] on an insertion-ordered dict. *)
Fixpoint lookup {A : Type} (k : string) (d : list (string * A)) : option A :=
  match d with
  | [] => None
  | (k', v) :: d' => if String.eqb k k' then Some v else lookup k d'
  end.

(** ** The world around the script *)

Record Response : Type := mkResponse {
  status_code : Z;
  (** what [response.json()] gives: [None] when the body does not decode *)
  json_body : option value
}.

Definition headers := list (string * string).

Record World : Type := mkWorld {
  (** [os.environ] *)
  environ : list (string * string);
  (** [requests.get(url, headers=h)]: [None] when it raises *)
  server : string -> headers -> option Response;
  (** whether the system lets this process create or write a regular file
      at this path (permissions, read-only mount, limits) *)
  permitted : string -> bool;
  (** whether the encoding of the file object, that of the locale, has an
      encoding for this text: UTF-8 has none for a lone surrogate, ASCII
      none for a character outside ASCII *)
  can_encode : string -> bool;
  (** how many characters the disk takes for the file before it refuses *)
  room : nat;
  (** the buffering of the file object: once it has accepted these texts,
      how many of their characters it has handed to the system (it never
      hands over more than it holds, nor takes anything back) *)
  flushed : list string -> nat
}.

(** ** The disk *)

(** What a path names: a regular file with its text, which may be
    read-only, a directory, or a symbolic link. *)
Inductive node : Type :=
| File (text : string) (read_only : bool)
| Dir
| Link (to : string).

Definition filesystem := string -> option node.

(** The system follows at most this many links. *)
Definition MAX_LINKS : nat := 40.

(** The path an open ends at: it follows the links, and stops with a
    failure at a directory or when there are too many links. *)
Fixpoint resolve (g : filesystem) (fuel : nat) (path : string) : option string :=
  match g path with
  | Some (Link q) =>
      match fuel with
      | O => None
      | S n => resolve g n q
      end
  | Some Dir => None
  | Some (File _ _) => Some path
  | None => Some path
  end.

Definition writable (x : option node) : bool :=
  match x with
  | Some (File _ ro) => negb ro
  | None => true
  | Some _ => false
  end.

Definition fs_set (path text : string) (g : filesystem) : filesystem :=
  fun p => if String.eqb p path then Some (File text false) else g p.

(** The text read back through a path. *)
Definition read (g : filesystem) (path : string) : option string :=
  match resolve g MAX_LINKS path with
  | Some p => match g p with
              | Some (File t _) => Some t
              | _ => None
              end
  | None => None
  end.

(** The first [n] characters of a text, and the texts of a list one after
    the other.  The text of a file is the text read back from it, and
    sizes are counted in its characters, one byte each. *)
Fixpoint take (n : nat) (t : string) {struct t} : string :=
  match t with
  | EmptyString => EmptyString
  | String c t' =>
      match n with
      | O => EmptyString
      | S n' => String c (take n' t')
      end
  end.

Definition join (ws : list string) : string := fold_right append "" ws.

(** ** State, actions and the monad *)

(** What the script did to the outside, in order: a call of
    [requests.get] (the request the script issues, whether or not an answer
    comes back), a file opened, a text accepted by the file object, the
    file closed. *)
Inductive event : Type :=
| EvGet (url : string) (h : headers)
| EvOpen (path : string) (mode : string)
| EvWrite (path : string) (text : string)
| EvClose (path : string).

Inductive file_state : Type := NotOpened | IsOpen | IsClosed.

Record State : Type := mkState {
  fs : filesystem;          (* the disk *)
  handle : file_state;      (* the file object [f], as the script leaves it *)
  target : string;          (* the file it writes to *)
  trace : list event;
  chunks : list string;     (* the texts it has accepted, in order *)
  offered : nat             (* how many of their characters it has handed over *)
}.

Inductive Result (A : Type) : Type :=
| Ok (a : A)
| Raise (e : exn).
Arguments Ok {A} a.
Arguments Raise {A} e.

Definition M (A : Type) : Type := State -> Result A * State.

Definition ret {A} (a : A) : M A := fun s => (Ok a, s).
Definition raise {A} (e : exn) : M A := fun s => (Raise e, s).
Definition bind {A B} (m : M A) (k : A -> M B) : M B :=
  fun s => match m s with
           | (Ok a, s') => k a s'
           | (Raise e, s') => (Raise e, s')
           end.

Declare Scope py_scope.
Delimit Scope py_scope with py.
Notation "x <- m ;; k" := (bind m (fun x => k))
  (at level 61, m at next level, right associativity) : py_scope.
Notation "m ;;; k" := (bind m (fun _ => k))
  (at level 61, right associativity) : py_scope.
Open Scope py_scope.

Definition log (e : event) (s : State) : State :=
  mkState (fs s) (handle s) (target s) (trace s ++ [e]) (chunks s) (offered s).

(** ** The operations the script calls *)

Section Script.

Variable w : World.

(** [os.environ.get(name)]: [None] for an unset variable. *)
Definition os_environ_get (name : string) : M value :=
  ret (match lookup name (environ w) with
       | Some v => VStr v
       | None => VNone
       end).

(** [a + b] with [a] a [str]: concatenation when [b] is a [str] too, a
    [TypeError] for any other operand. *)
Definition str_add (a : string) (b : value) : M string :=
  match b with
  | VStr t => ret (a ++ t)
  | _ => raise TypeError
  end.

(** [requests.get(url, headers=h)]: the call is made, then the answer or
    the exception comes back. *)
Definition requests_get (url : string) (h : headers) : M Response :=
  fun s => match server w url h with
           | Some r => (Ok r, log (EvGet url h) s)
           | None => (Raise RequestException, log (EvGet url h) s)
           end.

(** [response.json()] *)
Definition response_json (r : Response) : M value :=
  match json_body r with
  | Some v => ret v
  | None => raise JSONDecodeError
  end.

(** The file an [open(path, "w")] on the disk [g] creates or truncates:
    the one the links lead to, when it is not a directory, is not
    read-only, and the system permits it. *)
Definition open_target (g : filesystem) (path : string) : option string :=
  match resolve g MAX_LINKS path with
  | Some p => if permitted w p && writable (g p) then Some p else None
  | None => None
  end.

(** [open(path, "w")]: creates or truncates the file and gives a file
    object with an empty buffer. *)
Definition open_w (path : string) : M string :=
  fun s => match open_target (fs s) path with
           | Some p =>
               (Ok p,
                mkState (fs_set p "" (fs s)) IsOpen p
                        (trace s ++ [EvOpen path "w"]) [] 0)
           | None => (Raise OSError, s)
           end.

(** The text on the disk when the file object has accepted the texts [cs]
    and handed over [n] of their characters: the disk has taken them up to
    its room. *)
Definition on_disk (cs : list string) (n : nat) : string :=
  take (Nat.min n (room w)) (join cs).

(** [f.write(v)]: the argument must be a [str], the file must be open and
    the text must have an encoding.  The text goes to the buffer; the file
    object may hand some of what it holds to the system, and the call
    raises when the disk refuses part of it. *)
Definition f_write (f : string) (v : value) : M unit :=
  fun s => match v with
           | VStr t =>
               match handle s with
               | IsOpen =>
                   if can_encode w t
                   then
                     let cs := (chunks s ++ [t])%list in
                     let n := Nat.max (offered s)
                                (Nat.min (flushed w cs) (String.length (join cs))) in
                     let s' := mkState (fs_set f (on_disk cs n) (fs s)) IsOpen
                                       (target s) (trace s ++ [EvWrite f t]) cs n in
                     if Nat.leb n (room w) then (Ok tt, s') else (Raise OSError, s')
                   else (Raise UnicodeEncodeError, s)
               | _ => (Raise ValueError, s)
               end
           | _ => (Raise TypeError, s)
           end.

(** [f.close()]: hands everything buffered to the system and closes the
    file; when the disk refuses part of it the call raises, and the file
    is closed all the same.  Closing a closed file does nothing. *)
Definition f_close (f : string) : M unit :=
  fun s => match handle s with
           | IsOpen =>
               let n := String.length (join (chunks s)) in
               let s' := mkState (fs_set f (on_disk (chunks s) n) (fs s)) IsClosed
                                 (target s) (trace s ++ [EvClose f]) (chunks s) n in
               if Nat.leb n (room w) then (Ok tt, s') else (Raise OSError, s')
           | _ => (Ok tt, s)
           end.

(** [iter(v)]: the items a [for] loop over [v] visits. *)
Definition py_iter (v : value) : M (list value) :=
  match v with
  | VList l => ret l
  | VDict d => ret (map (fun kv => VStr (fst kv)) d)
  | VStr t => ret (map (fun c => VStr (String c EmptyString)) (list_ascii_of_string t))
  | _ => raise TypeError
  end.

(** [o[k]] with [k] a [str]. *)
Definition py_getitem (o : value) (k : string) : M value :=
  match o with
  | VDict d => match lookup k d with
               | Some v => ret v
               | None => raise KeyError
               end
  | _ => raise TypeError
  end.

Fixpoint for_each (items : list value) (body : value -> M unit) : M unit :=
  match items with
  | [] => ret tt
  | x :: rest => body x ;;; for_each rest body
  end.

(** ** The script, line by line *)

Definition OUTPUT_FILE : string := "organizations.txt".

Definition NL : string := String (ascii_of_nat 10) EmptyString.

(** The body of the loop (lines 35-36). *)
Definition write_org (f : string) (org : value) : M unit :=
  login <- py_getitem org "login" ;;
  f_write f login ;;;
  f_write f (VStr NL).

Definition script : M unit :=
  GHES_TOKEN <- os_environ_get "GHES_TOKEN" ;;
  GHES_HOST <- os_environ_get "GHES_HOST" ;;
  authorization <- str_add "token " GHES_TOKEN ;;
  let customHeaders :=
    [("Authorization", authorization);
     ("Accept", "application/vnd.github.v3+json")] in
  url0 <- str_add "https://" GHES_HOST ;;
  url <- str_add url0 (VStr "/api/v3/organizations") ;;
  response <- requests_get url customHeaders ;;
  listOrgs <- response_json response ;;
  f <- open_w OUTPUT_FILE ;;
  items <- py_iter listOrgs ;;
  for_each items (write_org f) ;;;
  f_close f.

Definition init (g : filesystem) : State := mkState g NotOpened "" [] [] 0.

(** When the interpreter exits, a file object the script has left open is
    flushed: what it holds goes to the disk as far as the disk takes it,
    and a refusal at that point is not reported. *)
Definition at_exit (s : State) : State :=
  match handle s with
  | IsOpen =>
      let n := String.length (join (chunks s)) in
      mkState (fs_set (target s) (on_disk (chunks s) n) (fs s)) IsOpen
              (target s) (trace s) (chunks s) n
  | _ => s
  end.

(** One run of the process on the disk [g]: how the script ends, and the
    state once the process is over. *)
Definition run (g : filesystem) : Result unit * State :=
  (fst (script (init g)), at_exit (snd (script (init g)))).

End Script.

(** The exit status of the interpreter: 0 at the end of the script, 1 after
    an uncaught exception. *)
Definition exit_status (r : Result unit) : Z :=
  match r with
  | Ok _ => 0
  | Raise _ => 1
  end.

Definition outcome (w : World) (g : filesystem) : Result unit := fst (run w g).
Definition final (w : World) (g : filesystem) : State := snd (run w g).

(** The text of [organizations.txt] after the run. *)
Definition output (w : World) (g : filesystem) : option string :=
  read (fs (final w g)) OUTPUT_FILE.

Definition no_file : filesystem := fun _ => None.

(** Whether [open(path, "w")] is granted on the disk [g]. *)
Definition can_open (w : World) (g : filesystem) (path : string) : bool :=
  match open_target w g path with
  | Some _ => true
  | None => false
  end.

(** ** What a well-formed answer is *)

(** The [login] of an organization record: a dict whose ["login"] entry is
    a [str]. *)
Definition login_of (v : value) : option string :=
  match v with
  | VDict d => match lookup "login" d with
               | Some (VStr l) => Some l
               | _ => None
               end
  | _ => None
  end.

(** A dict with a ["login"] key, whatever its value. *)
Definition has_login_key (v : value) : bool :=
  match v with
  | VDict d => match lookup "login" d with
               | Some _ => true
               | None => false
               end
  | _ => false
  end.

(** An array of objects with [login]. *)
Definition is_org_array (v : value) : bool :=
  match v with
  | VList l => forallb has_login_key l
  | _ => false
  end.

(** The file the script is meant to produce: every login followed by a
    line feed. *)
Fixpoint lines (logins : list string) : string :=
  match logins with
  | [] => ""
  | l :: rest => (l ++ NL) ++ lines rest
  end.



(** The URL and the headers of the request, as the interface documents
    them. *)
Definition api_url (host : string) : string :=
  "https://" ++ host ++ "/api/v3/organizations".

Definition api_headers (token : string) : headers :=
  [("Authorization", "token " ++ token);
   ("Accept", "application/vnd.github.v3+json")].

(** The GET requests among the actions. *)
Fixpoint requests_of (t : list event) : list (string * headers) :=
  match t with
  | [] => []
  | EvGet u h :: t' => (u, h) :: requests_of t'
  | _ :: t' => requests_of t'
  end.

(** The texts written, in order. *)
Fixpoint writes_of (t : list event) : list string :=
  match t with
  | [] => []
  | EvWrite _ x :: t' => x :: writes_of t'
  | _ :: t' => writes_of t'
  end.

Definition is_open_event (e : event) : bool :=
  match e with EvOpen _ _ => true | _ => false end.

Definition is_close_event (e : event) : bool :=
  match e with EvClose _ => true | _ => false end.

(** The state once the request has been sent. *)
Definition requested (g : filesystem) (token host : string) : State :=
  mkState g NotOpened "" [EvGet (api_url host) (api_headers token)] [] 0.

(** The state in which the loop starts, the file being [p]. *)
Definition opened (g : filesystem) (token host p : string) : State :=
  mkState (fs_set p "" g) IsOpen p
          [EvGet (api_url host) (api_headers token); EvOpen OUTPUT_FILE "w"] [] 0.

(** The items a loop over [v] visits, [None] when [v] is not iterable. *)
Definition items_of (v : value) : option (list value) :=
  match v with
  | VList l => Some l
  | VDict d => Some (map (fun kv => VStr (fst kv)) d)
  | VStr t => Some (map (fun c => VStr (String c EmptyString)) (list_ascii_of_string t))
  | _ => None
  end.

(** The decoded body of the answer to the request of this world, when
    both variables are set, the server answers and the body decodes. *)
Definition decoded (w : World) : option value :=
  match lookup "GHES_TOKEN" (environ w), lookup "GHES_HOST" (environ w) with
  | Some token, Some host =>
      match server w (api_url host) (api_headers token) with
      | Some r => json_body r
      | None => None
      end
  | _, _ => None
  end.

(** A configuration value that is absent or empty. *)
Definition absent_or_empty (o : option string) : bool :=
  match o with
  | None => true
  | Some EmptyString => true
  | Some _ => false
  end.

Definition config_absent_or_empty (w : World) : bool :=
  absent_or_empty (lookup "GHES_TOKEN" (environ w)) ||
  absent_or_empty (lookup "GHES_HOST" (environ w)).

(** The same world in which every answer carries the status [st]. *)
Definition with_status (st : Z) (w : World) : World :=
  mkWorld (environ w)
          (fun u h => match server w u h with
                      | Some r => Some (mkResponse st (json_body r))
                      | None => None
                      end)
          (permitted w) (can_encode w) (room w) (flushed w).


(** The texts the loop writes for well-formed records. *)
Definition texts (logins : list string) : list string :=
  flat_map (fun l => [l; NL]) logins.

(** ** The loop without the state *)

(** What the file object does with one text: whether the call returns,
    the texts it holds afterwards and how many characters it has handed
    over. *)
Definition buffer_write (w : World) (cs : list string) (n : nat) (t : string)
  : Result unit * (list string * nat) :=
  if can_encode w t
  then
    let cs' := (cs ++ [t])%list in
    let n' := Nat.max n (Nat.min (flushed w cs') (String.length (join cs'))) in
    (if Nat.leb n' (room w) then Ok tt else Raise OSError, (cs', n'))
  else (Raise UnicodeEncodeError, (cs, n)).

(** One iteration of the loop. *)
Definition item_run (w : World) (o : value) (cs : list string) (n : nat)
  : Result unit * (list string * nat) :=
  match o with
  | VDict d =>
      match lookup "login" d with
      | None => (Raise KeyError, (cs, n))
      | Some (VStr l) =>
          match buffer_write w cs n l with
          | (Ok _, (cs1, n1)) => buffer_write w cs1 n1 NL
          | (Raise e, x) => (Raise e, x)
          end
      | Some _ => (Raise TypeError, (cs, n))
      end
  | _ => (Raise TypeError, (cs, n))
  end.

(** The loop: how it ends, the texts accepted by then and the characters
    handed over.  [for_each_loop_run] below shows that the loop of the
    script does exactly this. *)
Fixpoint loop_run (w : World) (items : list value) (cs : list string) (n : nat)
  : Result unit * (list string * nat) :=
  match items with
  | [] => (Ok tt, (cs, n))
  | o :: rest =>
      match item_run w o cs n with
      | (Ok _, (cs', n')) => loop_run w rest cs' n'
      | (Raise e, x) => (Raise e, x)
      end
  end.

Definition loop_of (w : World) (v : value) : Result unit * (list string * nat) :=
  match items_of v with
  | None => (Raise TypeError, ([], 0))
  | Some items => loop_run w items [] 0
  end.

(** The texts the file object has accepted when the script ends. *)
Definition accepted (w : World) (v : value) : list string :=
  fst (snd (loop_of w v)).

(** Whether the script reaches its last line. *)
Definition closes (w : World) (v : value) : bool :=
  match fst (loop_of w v) with
  | Ok _ => true
  | Raise _ => false
  end.

(** How the script ends once the file is open. *)
Definition script_result (w : World) (v : value) : Result unit :=
  match fst (loop_of w v) with
  | Ok _ =>
      if Nat.leb (String.length (join (accepted w v))) (room w)
      then Ok tt else Raise OSError
  | Raise e => Raise e
  end.

(** The state of the file object inside the loop: open on [f], holding the
    texts [cs] of which [n] characters are handed over, on a disk that was
    [g0] when the file was opened. *)
Definition loop_state (w : World) (f : string) (g0 : filesystem)
           (t0 : list event) (cs : list string) (n : nat) (s : State) : Prop :=
  handle s = IsOpen /\
  target s = f /\
  trace s = (t0 ++ map (EvWrite f) cs)%list /\
  chunks s = cs /\
  offered s = n /\
  fs s f = Some (File (on_disk w cs n) false) /\
  (forall q, String.eqb q f = false -> fs s q = g0 q).

(** The state once the process is over, when the file [p] was opened. *)
Definition finished (w : World) (g : filesystem) (token host p : string)
           (v : value) (s : State) : Prop :=
  handle s = (if closes w v then IsClosed else IsOpen) /\
  trace s =
  (EvGet (api_url host) (api_headers token) :: EvOpen OUTPUT_FILE "w"
     :: map (EvWrite p) (accepted w v)
     ++ (if closes w v then [EvClose p] else []))%list /\
  fs s p = Some (File (take (room w) (join (accepted w v))) false) /\
  (forall q, String.eqb q p = false -> fs s q = g q).

(** The part of the script from the loop on, the file object being [p]. *)
Definition loop_and_close (w : World) (p : string) (listOrgs : value) : M unit :=
  items <- py_iter listOrgs ;;
  for_each items (write_org w p) ;;;
  f_close w p.

(** ** Worlds used in the examples *)

Definition env_example : list (string * string) :=
  [("GHES_TOKEN", "abc123"); ("GHES_HOST", "example.com")].

(** A server that answers every request with status [st] and the decoded
    body [body]; every text can be encoded, the disk has room, and the file
    object keeps everything until it is flushed. *)
Definition world_of (env : list (string * string)) (st : Z) (body : option value)
  : World :=
  mkWorld env (fun _ _ => Some (mkResponse st body)) (fun _ => true)
          (fun _ => true) 4096 (fun _ => 0).

Definition org (login : string) : value := VDict [("login", VStr login)].

Definition two_orgs : value := VList [org "org-one"; org "org-two"].

Definition world_two_orgs : World := world_of env_example 200 (Some two_orgs).



(** No network. *)
Definition world_offline : World :=
  mkWorld env_example (fun _ _ => None) (fun _ => true) (fun _ => true)
          4096 (fun _ => 0).

(** A disk on which [organizations.txt] already holds [text]. *)
Definition disk_with (text : string) : filesystem := fs_set OUTPUT_FILE text no_file.

(** The body is an empty JSON object although the status is an error. *)
Definition world_empty_object : World := world_of env_example 401 (Some (VDict [])).

(** [GHES_TOKEN] is set to the empty string. *)
Definition env_empty_token : list (string * string) :=
  [("GHES_TOKEN", ""); ("GHES_HOST", "example.com")].

Definition world_empty_token : World := world_of env_empty_token 200 (Some (VList [])).

(** [GHES_TOKEN] is not set. *)
Definition world_no_token : World :=
  world_of [("GHES_HOST", "example.com")] 200 (Some two_orgs).

(** The second record has no [login]. *)
Definition world_missing_login : World :=
  world_of env_example 200
    (Some (VList [org "org-one"; VDict [("id", VInt 7)]; org "org-three"])).

(** The body is not JSON. *)
Definition world_not_json : World := world_of env_example 502 None.

(** The disk takes ten characters and no more. *)
Definition world_disk_full : World :=
  mkWorld env_example (fun _ _ => Some (mkResponse 200 (Some two_orgs)))
          (fun _ => true) (fun _ => true) 10 (fun _ => 0).

(** The system does not let the process write the file. *)
Definition world_read_only : World :=
  mkWorld env_example (fun _ _ => Some (mkResponse 200 (Some two_orgs)))
          (fun _ => false) (fun _ => true) 4096 (fun _ => 0).


(** The login of the second record is [null]. *)
Definition world_null_login : World :=
  world_of env_example 200
    (Some (VList [org "org-one"; VDict [("login", VNone)]; org "org-three"])).






(** ** Texts *)

Lemma append_assoc (a b c : string) : (a ++ b) ++ c = a ++ b ++ c.
Proof. induction a as [|x a IH]; simpl; [reflexivity | rewrite IH; reflexivity]. Qed.


Lemma length_append (a b : string) :
  String.length (a ++ b) = String.length a + String.length b.
Proof. induction a as [|x a IH]; simpl; [reflexivity | now rewrite IH]. Qed.

Lemma join_app (a b : list string) : join (a ++ b) = join a ++ join b.
Proof.
  induction a as [|x a IH]; [reflexivity|].
  change (join ((x :: a) ++ b)) with (x ++ join (a ++ b)).
  change (join (x :: a)) with (x ++ join a).
  now rewrite IH, append_assoc.
Qed.

Lemma take_all (n : nat) (t : string) : String.length t <= n -> take n t = t.
Proof.
  revert n. induction t as [|c t IH]; intros n H; [reflexivity|].
  destruct n as [|n]; simpl in *; [lia|]. rewrite IH; [reflexivity | lia].
Qed.

Lemma take_min_length (r : nat) (t : string) :
  take (Nat.min (String.length t) r) t = take r t.
Proof.
  revert r. induction t as [|c t IH]; intros r; [reflexivity|].
  destruct r as [|r]; simpl; [reflexivity | now rewrite IH].
Qed.

Lemma take_app_le (r : nat) (a b : string) :
  r <= String.length a -> take r (a ++ b) = take r a.
Proof.
  revert r. induction a as [|c a IH]; intros r H; simpl in *.
  - assert (r = 0) as -> by lia. destruct b; reflexivity.
  - destruct r as [|r]; [reflexivity|]. rewrite IH; [reflexivity | lia].
Qed.

Lemma join_texts (logins : list string) : join (texts logins) = lines logins.
Proof.
  induction logins as [|l rest IH]; [reflexivity|].
  change (join (texts (l :: rest))) with (l ++ NL ++ join (texts rest)).
  rewrite IH. cbn [lines]. now rewrite append_assoc.
Qed.



(** ** Actions *)

Lemma writes_of_app (a b : list event) :
  writes_of (a ++ b) = (writes_of a ++ writes_of b)%list.
Proof.
  induction a as [|[ | | |] a IH]; simpl; try exact IH; [reflexivity|].
  now rewrite IH.
Qed.

Lemma requests_of_app (a b : list event) :
  requests_of (a ++ b) = (requests_of a ++ requests_of b)%list.
Proof.
  induction a as [|[ | | |] a IH]; simpl; try exact IH; [reflexivity|].
  now rewrite IH.
Qed.

Lemma writes_of_map (f : string) (ws : list string) :
  writes_of (map (EvWrite f) ws) = ws.
Proof. induction ws as [|t ws IH]; simpl; [reflexivity | now rewrite IH]. Qed.

Lemma requests_of_map (f : string) (ws : list string) :
  requests_of (map (EvWrite f) ws) = [].
Proof. induction ws as [|t ws IH]; simpl; [reflexivity | exact IH]. Qed.

Lemma existsb_map_write (f : string) (ws : list string) (p : event -> bool) :
  (forall f' t, p (EvWrite f' t) = false) ->
  existsb p (map (EvWrite f) ws) = false.
Proof.
  intros Hp. induction ws as [|t ws IH]; simpl; [reflexivity|].
  now rewrite Hp, IH.
Qed.

(** ** The disk *)

(** Writing the file an open ends at does not change where opens end. *)
Lemma resolve_stable (g g' : filesystem) (n : nat) (path p t : string) :
  (forall q, String.eqb q p = false -> g' q = g q) ->
  g' p = Some (File t false) ->
  resolve g n path = Some p ->
  resolve g' n path = Some p.
Proof.
  intros Ho Hp. revert path. induction n as [|n IH]; intros path H.
  - simpl in *. destruct (String.eqb path p) eqn:E.
    + apply String.eqb_eq in E. subst path. now rewrite Hp.
    + rewrite (Ho _ E). exact H.
  - simpl in *. destruct (String.eqb path p) eqn:E.
    + apply String.eqb_eq in E. subst path. now rewrite Hp.
    + rewrite (Ho _ E). destruct (g path) as [[t' ro| |q]|]; try exact H.
      apply IH. exact H.
Qed.

(** Reading [path] back once the file its open ends at has been written. *)
Lemma read_written (w : World) (g g' : filesystem) (path p t : string) :
  open_target w g path = Some p ->
  (forall q, String.eqb q p = false -> g' q = g q) ->
  g' p = Some (File t false) ->
  read g' path = Some t.
Proof.
  unfold open_target, read. intros H Ho Hp.
  destruct (resolve g MAX_LINKS path) as [p'|] eqn:E; [|discriminate].
  destruct (permitted w p' && writable (g p')); [|discriminate].
  injection H as ->.
  now rewrite (resolve_stable g g' MAX_LINKS path p t Ho Hp E), Hp.
Qed.

(** An open that was granted is granted again, and ends at the same file,
    once that file has been written. *)
Lemma open_target_stable (w : World) (g g' : filesystem) (path p t : string) :
  open_target w g path = Some p ->
  (forall q, String.eqb q p = false -> g' q = g q) ->
  g' p = Some (File t false) ->
  open_target w g' path = Some p.
Proof.
  unfold open_target. intros H Ho Hp.
  destruct (resolve g MAX_LINKS path) as [p'|] eqn:E; [|discriminate].
  destruct (permitted w p') eqn:Hperm; [|discriminate].
  destruct (writable (g p')); [|discriminate].
  injection H as ->.
  now rewrite (resolve_stable g g' MAX_LINKS path p t Ho Hp E), Hperm, Hp.
Qed.

(** ** The loop of the script is [loop_run] *)

Lemma f_write_state (w : World) (f : string) (g0 : filesystem) (t0 : list event)
      (cs : list string) (n : nat) (t : string) (s : State) :
  loop_state w f g0 t0 cs n s ->
  exists s',
    f_write w f (VStr t) s = (fst (buffer_write w cs n t), s') /\
    loop_state w f g0 t0 (fst (snd (buffer_write w cs n t)))
               (snd (snd (buffer_write w cs n t))) s'.
Proof.
  intros (Hh & Ht & Htr & Hc & Ho & Hf & Hg).
  unfold f_write, buffer_write. rewrite Hh, Hc, Ho.
  destruct (can_encode w t).
  - eexists. split.
    + cbn [fst]. destruct (Nat.leb _ (room w)); reflexivity.
    + cbn [fst snd]. unfold loop_state. cbn [handle target trace chunks offered fs].
      repeat split; try assumption.
      * now rewrite Htr, map_app, <- app_assoc.
      * unfold fs_set. now rewrite String.eqb_refl.
      * intros q Hq. unfold fs_set. rewrite Hq. now apply Hg.
  - exists s. split; [reflexivity|]. cbn [fst snd]. unfold loop_state. auto 10.
Qed.

Lemma write_org_state (w : World) (f : string) (g0 : filesystem) (t0 : list event)
      (cs : list string) (n : nat) (o : value) (s : State) :
  loop_state w f g0 t0 cs n s ->
  exists s',
    write_org w f o s = (fst (item_run w o cs n), s') /\
    loop_state w f g0 t0 (fst (snd (item_run w o cs n)))
               (snd (snd (item_run w o cs n))) s'.
Proof.
  intros Hs. unfold write_org, bind, py_getitem, item_run.
  destruct o as [| | | | | |d]; try (exists s; split; [reflexivity | exact Hs]).
  destruct (lookup "login" d) as [v|]; [|exists s; split; [reflexivity | exact Hs]].
  unfold ret.
  destruct v as [| | | |l| |]; try (exists s; split; [reflexivity | exact Hs]).
  destruct (f_write_state w f g0 t0 cs n l s Hs) as (s1 & E1 & H1). rewrite E1.
  destruct (buffer_write w cs n l) as [[[]|e] [cs1 n1]]; cbn [fst snd] in *.
  - exact (f_write_state w f g0 t0 cs1 n1 NL s1 H1).
  - exists s1. split; [reflexivity | exact H1].
Qed.

Lemma for_each_loop_run (w : World) (f : string) (g0 : filesystem) (t0 : list event)
      (items : list value) (cs : list string) (n : nat) (s : State) :
  loop_state w f g0 t0 cs n s ->
  exists s',
    for_each items (write_org w f) s = (fst (loop_run w items cs n), s') /\
    loop_state w f g0 t0 (fst (snd (loop_run w items cs n)))
               (snd (snd (loop_run w items cs n))) s'.
Proof.
  revert cs n s. induction items as [|o items IH]; intros cs n s Hs.
  - exists s. split; [reflexivity | exact Hs].
  - cbn [for_each loop_run]. unfold bind.
    destruct (write_org_state w f g0 t0 cs n o s Hs) as (s1 & E1 & H1). rewrite E1.
    destruct (item_run w o cs n) as [[[]|e] [cs1 n1]]; cbn [fst snd] in *.
    + exact (IH cs1 n1 s1 H1).
    + exists s1. split; [reflexivity | exact H1].
Qed.

(** ** The run, step by step *)

Lemma py_iter_items (v : value) (s : State) :
  py_iter v s =
  match items_of v with
  | Some items => (Ok items, s)
  | None => (Raise TypeError, s)
  end.
Proof. destruct v; reflexivity. Qed.

(** The script once both variables are set: what is left to decide is the
    answer of the server, its body and the open. *)
Lemma script_configured (w : World) (g : filesystem) (token host : string) :
  lookup "GHES_TOKEN" (environ w) = Some token ->
  lookup "GHES_HOST" (environ w) = Some host ->
  script w (init g) =
  match server w (api_url host) (api_headers token) with
  | None => (Raise RequestException, requested g token host)
  | Some r =>
      match json_body r with
      | None => (Raise JSONDecodeError, requested g token host)
      | Some v =>
          match open_target w g OUTPUT_FILE with
          | None => (Raise OSError, requested g token host)
          | Some p => loop_and_close w p v (opened g token host p)
          end
      end
  end.
Proof.
  intros Ht Hh. unfold script, os_environ_get, bind, ret.
  rewrite Ht, Hh. simpl. unfold requests_get, api_url, api_headers. simpl.
  destruct (server w _ _) as [r|]; [|reflexivity].
  unfold response_json. destruct (json_body r) as [v|]; [|reflexivity].
  unfold ret, open_w. simpl.
  destruct (open_target w g OUTPUT_FILE) as [p|]; reflexivity.
Qed.

(** A script in which a variable is unset stops at the concatenation. *)
Lemma script_token_unset (w : World) (g : filesystem) :
  lookup "GHES_TOKEN" (environ w) = None ->
  script w (init g) = (Raise TypeError, init g).
Proof.
  intros Ht. unfold script, os_environ_get, bind, ret. rewrite Ht. reflexivity.
Qed.

Lemma script_host_unset (w : World) (g : filesystem) (token : string) :
  lookup "GHES_TOKEN" (environ w) = Some token ->
  lookup "GHES_HOST" (environ w) = None ->
  script w (init g) = (Raise TypeError, init g).
Proof.
  intros Ht Hh. unfold script, os_environ_get, bind, ret. rewrite Ht, Hh.
  reflexivity.
Qed.

Lemma opened_loop_state (w : World) (g : filesystem) (token host p : string) :
  loop_state w p g
             [EvGet (api_url host) (api_headers token); EvOpen OUTPUT_FILE "w"]
             [] 0 (opened g token host p).
Proof.
  unfold loop_state, opened. cbn [handle target trace chunks offered fs].
  repeat split.
  - unfold fs_set. now rewrite String.eqb_refl.
  - intros q Hq. unfold fs_set. now rewrite Hq.
Qed.

(** The script from the loop on, and the flush at the exit. *)
Lemma loop_and_close_spec (w : World) (g : filesystem) (token host p : string)
      (v : value) :
  fst (loop_and_close w p v (opened g token host p)) = script_result w v /\
  finished w g token host p v
           (at_exit w (snd (loop_and_close w p v (opened g token host p)))).
Proof.
  unfold loop_and_close, bind. rewrite py_iter_items.
  unfold script_result, finished, closes, accepted, loop_of.
  destruct (items_of v) as [items|].
  - destruct (for_each_loop_run w p g _ items [] 0 _
                (opened_loop_state w g token host p))
      as (s1 & E1 & Hh & Ht & Htr & Hc & Ho & Hf & Hg).
    rewrite E1. destruct (loop_run w items [] 0) as [[[]|e] [cs n]];
      cbn [fst snd] in *.
    + unfold f_close. rewrite Hh, Hc.
      assert (Hfin :
        forall r : Result unit,
          handle (at_exit w (snd (r,
            mkState (fs_set p (on_disk w cs (String.length (join cs))) (fs s1))
                    IsClosed (target s1) (trace s1 ++ [EvClose p]) cs
                    (String.length (join cs))))) = IsClosed /\
          trace (at_exit w (snd (r,
            mkState (fs_set p (on_disk w cs (String.length (join cs))) (fs s1))
                    IsClosed (target s1) (trace s1 ++ [EvClose p]) cs
                    (String.length (join cs))))) =
          (EvGet (api_url host) (api_headers token) :: EvOpen OUTPUT_FILE "w"
             :: map (EvWrite p) cs ++ [EvClose p])%list /\
          fs (at_exit w (snd (r,
            mkState (fs_set p (on_disk w cs (String.length (join cs))) (fs s1))
                    IsClosed (target s1) (trace s1 ++ [EvClose p]) cs
                    (String.length (join cs))))) p =
          Some (File (take (room w) (join cs)) false) /\
          (forall q, String.eqb q p = false ->
             fs (at_exit w (snd (r,
               mkState (fs_set p (on_disk w cs (String.length (join cs))) (fs s1))
                       IsClosed (target s1) (trace s1 ++ [EvClose p]) cs
                       (String.length (join cs))))) q = g q)).
      { intros r. unfold at_exit. cbn [snd handle trace fs]. repeat split.
        - now rewrite Htr.
        - unfold fs_set, on_disk. now rewrite String.eqb_refl, take_min_length.
        - intros q Hq. unfold fs_set. rewrite Hq. now apply Hg. }
      destruct (Nat.leb (String.length (join cs)) (room w));
        (split; [reflexivity | apply Hfin]).
    + split; [reflexivity|]. unfold at_exit. rewrite Hh, Ht, Hc.
      cbn [handle trace fs]. repeat split.
      * rewrite Htr. cbn [app]. now rewrite app_nil_r.
      * unfold fs_set, on_disk. now rewrite String.eqb_refl, take_min_length.
      * intros q Hq. unfold fs_set. rewrite Hq. now apply Hg.
  - cbn [fst snd]. split; [reflexivity|].
    unfold at_exit, opened. cbn [handle target trace chunks fs].
    repeat split.
    + unfold fs_set. now rewrite String.eqb_refl.
    + intros q Hq. unfold fs_set. now rewrite !Hq.
Qed.

(** Every run is one of these. *)
Lemma run_spec (w : World) (g : filesystem) :
  match lookup "GHES_TOKEN" (environ w), lookup "GHES_HOST" (environ w) with
  | Some token, Some host =>
      match server w (api_url host) (api_headers token) with
      | None => run w g = (Raise RequestException, requested g token host)
      | Some r =>
          match json_body r with
          | None => run w g = (Raise JSONDecodeError, requested g token host)
          | Some v =>
              match open_target w g OUTPUT_FILE with
              | None => run w g = (Raise OSError, requested g token host)
              | Some p =>
                  fst (run w g) = script_result w v /\
                  finished w g token host p v (snd (run w g))
              end
          end
      end
  | _, _ => run w g = (Raise TypeError, init g)
  end.
Proof.
  unfold run.
  destruct (lookup "GHES_TOKEN" (environ w)) as [token|] eqn:Ht.
  2:{ rewrite (script_token_unset w g Ht).
      destruct (lookup "GHES_HOST" (environ w)); reflexivity. }
  destruct (lookup "GHES_HOST" (environ w)) as [host|] eqn:Hh.
  2:{ now rewrite (script_host_unset w g token Ht Hh). }
  rewrite (script_configured w g token host Ht Hh).
  destruct (server w _ _) as [r|]; [|reflexivity].
  destruct (json_body r) as [v|]; [|reflexivity].
  destruct (open_target w g OUTPUT_FILE) as [p|]; [|reflexivity].
  cbn [fst snd]. apply loop_and_close_spec.
Qed.

(** ** The loop, read off [loop_run] *)

Lemma length_join_app_le (a b : list string) :
  String.length (join a) <= String.length (join (a ++ b)).
Proof. rewrite join_app, length_append. lia. Qed.

(** A text that can be encoded goes to the buffer; the call raises only
    when the disk refuses what is handed over. *)
Lemma buffer_write_encodable (w : World) (cs : list string) (n : nat) (t : string) :
  can_encode w t = true ->
  n <= String.length (join cs) ->
  exists n',
    buffer_write w cs n t =
    (if Nat.leb n' (room w) then Ok tt else Raise OSError, ((cs ++ [t])%list, n')) /\
    n <= n' /\ n' <= String.length (join (cs ++ [t])).
Proof.
  intros He Hn. unfold buffer_write. rewrite He. eexists. split; [reflexivity|].
  pose proof (length_join_app_le cs [t]). lia.
Qed.

Lemma loop_run_app (w : World) (a b : list value) (cs : list string) (n : nat) :
  loop_run w (a ++ b) cs n =
  match loop_run w a cs n with
  | (Ok _, (cs', n')) => loop_run w b cs' n'
  | (Raise e, x) => (Raise e, x)
  end.
Proof.
  revert cs n. induction a as [|o a IH]; intros cs n; [reflexivity|].
  cbn [app loop_run]. destruct (item_run w o cs n) as [[[]|e] [cs1 n1]];
    [apply IH | reflexivity].
Qed.

(** The loop over well-formed records whose texts can be encoded either
    accepts them all, or stops at a write with an [OSError] because the
    disk has refused part of what was handed over. *)
Lemma loop_run_well_formed (w : World) (items : list value) (logins : list string)
      (cs : list string) (n : nat) :
  map login_of items = map Some logins ->
  forallb (can_encode w) (texts logins) = true ->
  n <= String.length (join cs) ->
  n <= room w ->
  (exists n',
      loop_run w items cs n = (Ok tt, ((cs ++ texts logins)%list, n')) /\
      n' <= room w /\ n' <= String.length (join (cs ++ texts logins))) \/
  (exists ts rest n',
      loop_run w items cs n = (Raise OSError, ((cs ++ ts)%list, n')) /\
      texts logins = (ts ++ rest)%list /\
      room w < n' /\ n' <= String.length (join (cs ++ ts))).
Proof.
  revert logins cs n.
  induction items as [|o items IH]; intros [|l logins] cs n Hm He Hn Hr;
    try discriminate Hm.
  - left. exists n. cbn [loop_run texts flat_map]. rewrite app_nil_r. auto.
  - injection Hm as Hl Hm.
    destruct o as [| | | | | |d]; try discriminate Hl. simpl in Hl.
    cbn [loop_run]. unfold item_run.
    destruct (lookup "login" d) as [[| | | |t| |]|]; try discriminate Hl.
    injection Hl as ->.
    change (texts (l :: logins)) with (l :: NL :: texts logins) in *.
    cbn [forallb] in He. apply andb_true_iff in He as [He1 He].
    apply andb_true_iff in He as [He2 He].
    destruct (buffer_write_encodable w cs n l He1 Hn) as (n1 & E1 & Hn1 & Hl1).
    rewrite E1. destruct (Nat.leb n1 (room w)) eqn:L1.
    + apply Nat.leb_le in L1.
      destruct (buffer_write_encodable w (cs ++ [l]) n1 NL He2 Hl1)
        as (n2 & E2 & Hn2 & Hl2).
      rewrite E2. destruct (Nat.leb n2 (room w)) eqn:L2.
      * apply Nat.leb_le in L2.
        destruct (IH logins ((cs ++ [l]) ++ [NL])%list n2 Hm He Hl2 L2)
          as [(n' & E & H1 & H2) | (ts & rest & n' & E & H1 & H2 & H3)].
        -- left. exists n'. rewrite E.
           replace (((cs ++ [l]) ++ [NL]) ++ texts logins)%list
             with (cs ++ l :: NL :: texts logins)%list in *
             by (now rewrite <- !app_assoc).
           auto.
        -- right. exists (l :: NL :: ts), rest, n'. rewrite E.
           replace (((cs ++ [l]) ++ [NL]) ++ ts)%list
             with (cs ++ l :: NL :: ts)%list in *
             by (now rewrite <- !app_assoc).
           rewrite H1. auto.
      * apply Nat.leb_gt in L2. right.
        exists [l; NL], (texts logins), n2.
        replace ((cs ++ [l]) ++ [NL])%list with (cs ++ [l; NL])%list in *
          by (now rewrite <- app_assoc).
        auto.
    + apply Nat.leb_gt in L1. right.
      exists [l], (NL :: texts logins), n1. auto.
Qed.

(** When the disk has room for all the texts, the loop accepts them all. *)
Lemma loop_run_ok (w : World) (items : list value) (logins : list string) :
  map login_of items = map Some logins ->
  forallb (can_encode w) (texts logins) = true ->
  String.length (lines logins) <= room w ->
  exists n', loop_run w items [] 0 = (Ok tt, (texts logins, n')).
Proof.
  intros Hm He Hr.
  destruct (loop_run_well_formed w items logins [] 0 Hm He (Nat.le_0_l _) (Nat.le_0_l _))
    as [(n' & E & _) | (ts & rest & n' & E & H1 & H2 & H3)].
  - exists n'. exact E.
  - exfalso. cbn [app] in H3. rewrite <- join_texts, H1 in Hr.
    pose proof (length_join_app_le ts rest). lia.
Qed.

Lemma buffer_write_ok_inv (w : World) (cs cs1 : list string) (n n1 : nat)
      (t : string) :
  buffer_write w cs n t = (Ok tt, (cs1, n1)) ->
  can_encode w t = true /\ cs1 = (cs ++ [t])%list.
Proof.
  unfold buffer_write. destruct (can_encode w t); [|discriminate].
  destruct (Nat.leb _ (room w)); [|discriminate].
  intros E. injection E as <- _. auto.
Qed.

Lemma buffer_write_raise_inv (w : World) (cs : list string) (n : nat) (t : string)
      (e : exn) (x : list string * nat) :
  buffer_write w cs n t = (Raise e, x) ->
  e = UnicodeEncodeError \/ e = OSError.
Proof.
  unfold buffer_write. destruct (can_encode w t).
  - destruct (Nat.leb _ (room w)); [discriminate|].
    intros E. injection E as <- _. auto.
  - intros E. injection E as <- _. auto.
Qed.

(** A loop that ends normally ran over well-formed records only, and all
    their texts could be encoded. *)
Lemma loop_run_inv (w : World) (items : list value) (cs : list string) (n : nat) :
  fst (loop_run w items cs n) = Ok tt ->
  exists logins,
    map login_of items = map Some logins /\
    forallb (can_encode w) (texts logins) = true /\
    fst (snd (loop_run w items cs n)) = (cs ++ texts logins)%list.
Proof.
  revert cs n. induction items as [|o items IH]; intros cs n.
  - intros _. exists []. cbn. now rewrite app_nil_r.
  - cbn [loop_run]. unfold item_run.
    destruct o as [| | | | | |d]; cbn [fst]; try discriminate.
    destruct (lookup "login" d) as [[| | | |l| |]|] eqn:El; cbn [fst];
      try discriminate.
    destruct (buffer_write w cs n l) as [[[]|e1] [cs1 n1]] eqn:B1; [|discriminate].
    destruct (buffer_write_ok_inv w cs cs1 n n1 l B1) as [E1 ->].
    destruct (buffer_write w (cs ++ [l]) n1 NL) as [[[]|e2] [cs2 n2]] eqn:B2;
      [|discriminate].
    destruct (buffer_write_ok_inv w _ cs2 n1 n2 NL B2) as [E2 ->].
    intros H. destruct (IH _ _ H) as (logins & Hm & He & Hc).
    exists (l :: logins). repeat split.
    + cbn [map login_of]. now rewrite El, Hm.
    + change (texts (l :: logins)) with (l :: NL :: texts logins).
      cbn [forallb]. now rewrite E1, E2, He.
    + rewrite Hc. change (texts (l :: logins)) with (l :: NL :: texts logins).
      now rewrite <- !app_assoc.
Qed.

(** The loop raises nothing but these four exceptions. *)
Lemma loop_run_exn (w : World) (items : list value) (cs : list string) (n : nat)
      (e : exn) :
  fst (loop_run w items cs n) = Raise e ->
  e = TypeError \/ e = KeyError \/ e = UnicodeEncodeError \/ e = OSError.
Proof.
  revert cs n. induction items as [|o items IH]; intros cs n; [discriminate|].
  cbn [loop_run]. unfold item_run.
  destruct o as [| | | | | |d]; cbn [fst];
    try (intros E; injection E as <-; auto).
  destruct (lookup "login" d) as [[| | | |l| |]|]; cbn [fst];
    try (intros E; injection E as <-; auto).
  destruct (buffer_write w cs n l) as [[[]|e1] [cs1 n1]] eqn:B1.
  - destruct (buffer_write w cs1 n1 NL) as [[[]|e2] [cs2 n2]] eqn:B2.
    + apply IH.
    + intros E. injection E as <-.
      destruct (buffer_write_raise_inv w _ _ _ _ _ B2); auto.
  - intros E. injection E as <-.
    destruct (buffer_write_raise_inv w _ _ _ _ _ B1); auto.
Qed.

(** ** The state once the process is over *)

Lemma finished_writes (w : World) (g : filesystem) (token host p : string)
      (v : value) (s : State) :
  finished w g token host p v s -> writes_of (trace s) = accepted w v.
Proof.
  intros (_ & Htr & _). rewrite Htr. cbn [writes_of].
  rewrite writes_of_app, writes_of_map.
  destruct (closes w v); cbn [writes_of]; now rewrite app_nil_r.
Qed.

Lemma finished_requests (w : World) (g : filesystem) (token host p : string)
      (v : value) (s : State) :
  finished w g token host p v s ->
  requests_of (trace s) = [(api_url host, api_headers token)].
Proof.
  intros (_ & Htr & _). rewrite Htr. cbn [requests_of].
  rewrite requests_of_app, requests_of_map.
  destruct (closes w v); reflexivity.
Qed.

Lemma finished_read (w : World) (g : filesystem) (token host p : string)
      (v : value) (s : State) :
  open_target w g OUTPUT_FILE = Some p ->
  finished w g token host p v s ->
  read (fs s) OUTPUT_FILE = Some (take (room w) (join (accepted w v))).
Proof.
  intros Hp (_ & _ & Hf & Hg).
  exact (read_written w g (fs s) OUTPUT_FILE p _ Hp Hg Hf).
Qed.

Lemma finished_opened (w : World) (g : filesystem) (token host p : string)
      (v : value) (s : State) :
  finished w g token host p v s ->
  existsb is_open_event (trace s) = true.
Proof. intros (_ & Htr & _). now rewrite Htr. Qed.

(** How the script can end once the file is open. *)
Lemma script_result_cases (w : World) (v : value) :
  script_result w v = Ok tt \/
  exists e, script_result w v = Raise e /\
            (e = TypeError \/ e = KeyError \/ e = UnicodeEncodeError \/ e = OSError).
Proof.
  unfold script_result, accepted, loop_of.
  destruct (items_of v) as [items|]; cbn [fst].
  - pose proof (loop_run_exn w items [] 0) as He.
    destruct (fst (loop_run w items [] 0)) as [[]|e].
    + destruct (Nat.leb _ (room w)); [now left | right; exists OSError; auto 6].
    + right. exists e. split; [reflexivity | now apply He].
  - right. exists TypeError. auto.
Qed.

(** The run once the file is open. *)
Lemma run_opened (w : World) (g : filesystem) (token host p : string)
      (r : Response) (v : value) :
  lookup "GHES_TOKEN" (environ w) = Some token ->
  lookup "GHES_HOST" (environ w) = Some host ->
  server w (api_url host) (api_headers token) = Some r ->
  json_body r = Some v ->
  open_target w g OUTPUT_FILE = Some p ->
  outcome w g = script_result w v /\
  finished w g token host p v (final w g).
Proof.
  intros Ht Hh Hs Hj Hp. pose proof (run_spec w g) as R.
  rewrite Ht, Hh, Hs, Hj, Hp in R. exact R.
Qed.

(** The script when all the texts go through. *)
Lemma script_well_formed (w : World) (v : value) (items : list value)
      (logins : list string) :
  items_of v = Some items ->
  map login_of items = map Some logins ->
  forallb (can_encode w) (texts logins) = true ->
  String.length (lines logins) <= room w ->
  script_result w v = Ok tt /\ accepted w v = texts logins /\ closes w v = true.
Proof.
  intros Hi Hm He Hr.
  destruct (loop_run_ok w items logins Hm He Hr) as [n' E].
  unfold script_result, accepted, closes, loop_of. rewrite Hi, E. cbn [fst snd].
  rewrite join_texts. apply Nat.leb_le in Hr. now rewrite Hr.
Qed.

(** The script when an element raises before anything is accepted for
    it, the elements before it being written. *)
Lemma script_stops_at (w : World) (pre post : list value) (bad : value)
      (logins : list string) (e : exn) :
  map login_of pre = map Some logins ->
  forallb (can_encode w) (texts logins) = true ->
  String.length (lines logins) <= room w ->
  (forall cs n, item_run w bad cs n = (Raise e, (cs, n))) ->
  script_result w (VList (pre ++ bad :: post)) = Raise e /\
  accepted w (VList (pre ++ bad :: post)) = texts logins /\
  closes w (VList (pre ++ bad :: post)) = false.
Proof.
  intros Hm He Hr Hb.
  destruct (loop_run_ok w pre logins Hm He Hr) as [n' E].
  unfold script_result, accepted, closes, loop_of. cbn [items_of].
  rewrite loop_run_app, E. cbn [loop_run]. rewrite Hb. auto.
Qed.

(** A run that ends normally: both variables were set, the server
    answered, the file was opened, the items of the body were all
    well-formed records whose texts could be encoded, and the disk had
    room for them. *)
Lemma run_success_inv (w : World) (g : filesystem) :
  outcome w g = Ok tt ->
  exists token host r v p items logins,
    lookup "GHES_TOKEN" (environ w) = Some token /\
    lookup "GHES_HOST" (environ w) = Some host /\
    server w (api_url host) (api_headers token) = Some r /\
    json_body r = Some v /\
    open_target w g OUTPUT_FILE = Some p /\
    items_of v = Some items /\
    map login_of items = map Some logins /\
    forallb (can_encode w) (texts logins) = true /\
    String.length (lines logins) <= room w.
Proof.
  unfold outcome. pose proof (run_spec w g) as R.
  destruct (lookup "GHES_TOKEN" (environ w)) as [token|] eqn:Ht.
  2:{ destruct (lookup "GHES_HOST" (environ w)); rewrite R; discriminate. }
  destruct (lookup "GHES_HOST" (environ w)) as [host|] eqn:Hh;
    [|rewrite R; discriminate].
  destruct (server w _ _) as [r|] eqn:Hs; [|rewrite R; discriminate].
  destruct (json_body r) as [v|] eqn:Hj; [|rewrite R; discriminate].
  destruct (open_target w g OUTPUT_FILE) as [p|] eqn:Hp; [|rewrite R; discriminate].
  destruct R as [R _]. rewrite R. unfold script_result, accepted, loop_of.
  destruct (items_of v) as [items|] eqn:Hi; [|discriminate].
  pose proof (loop_run_inv w items [] 0) as Hinv.
  destruct (fst (loop_run w items [] 0)) as [[]|e]; [|discriminate].
  destruct (Hinv eq_refl) as (logins & Hm & He & Hc). rewrite Hc. cbn [app].
  destruct (Nat.leb _ (room w)) eqn:L; [|discriminate]. intros _.
  apply Nat.leb_le in L. rewrite join_texts in L.
  exists token, host, r, v, p, items, logins. auto 10.
Qed.

(** The script never looks at the status of the answer. *)
Lemma run_ignores_status (st : Z) (w : World) (g : filesystem) :
  run (with_status st w) g = run w g.
Proof.
  unfold run, script, os_environ_get, bind, ret. simpl.
  destruct (lookup "GHES_TOKEN" (environ w)); [|reflexivity].
  destruct (lookup "GHES_HOST" (environ w)); [|reflexivity].
  simpl. unfold requests_get. simpl.
  destruct (server w _ _) as [r|]; reflexivity.
Qed.

(** A loop over the keys of a dict or the characters of a string ends
    normally only when there is nothing to visit. *)
Lemma items_well_formed_shape (v : value) (items : list value)
      (logins : list string) :
  items_of v = Some items ->
  map login_of items = map Some logins ->
  is_org_array v = false ->
  (v = VDict [] \/ v = VStr "") /\ logins = [].
Proof.
  intros Hi Hm Hv. destruct v as [| | | |t|l|d]; try discriminate Hi;
    simpl in Hi; injection Hi as <-.
  - destruct t as [|c t]; simpl in Hm.
    + destruct logins; [auto | discriminate].
    + destruct logins; discriminate.
  - exfalso. simpl in Hv. revert logins Hm Hv.
    induction l as [|o l IH]; intros logins Hm Hv; [discriminate|].
    destruct logins as [|x logins]; [discriminate|].
    simpl in Hm, Hv. injection Hm as Ho Hm.
    assert (Hk : has_login_key o = true).
    { destruct o as [| | | | | |d]; try discriminate Ho. simpl in *.
      destruct (lookup "login" d); [reflexivity | discriminate]. }
    rewrite Hk in Hv. exact (IH logins Hm Hv).
  - destruct d as [|[k x] d]; simpl in Hm.
    + destruct logins; [auto | discriminate].
    + destruct logins; discriminate.
Qed.

(** With both variables set, the run sends one request, whatever happens
    afterwards. *)
Lemma run_requests (w : World) (g : filesystem) (token host : string) :
  lookup "GHES_TOKEN" (environ w) = Some token ->
  lookup "GHES_HOST" (environ w) = Some host ->
  requests_of (trace (final w g)) = [(api_url host, api_headers token)].
Proof.
  intros Ht Hh. unfold final. pose proof (run_spec w g) as R. rewrite Ht, Hh in R.
  destruct (server w _ _) as [r|]; [|now rewrite R].
  destruct (json_body r) as [v|]; [|now rewrite R].
  destruct (open_target w g OUTPUT_FILE) as [p|]; [|now rewrite R].
  destruct R as [_ R]. exact (finished_requests w g token host p v _ R).
Qed.

(** When the loop raises, the rest of the script is not run: the file
    object is as the loop left it, open, and nothing has closed it. *)
Lemma write_org_keeps_open (w : World) (f : string) (o : value) (s : State) :
  handle s = IsOpen ->
  handle (snd (write_org w f o s)) = IsOpen /\
  existsb is_close_event (trace (snd (write_org w f o s))) =
  existsb is_close_event (trace s).
Proof.
  intros Hh. unfold write_org, bind, py_getitem.
  destruct o as [| | | | |?|d]; try (split; [exact Hh | reflexivity]).
  destruct (lookup "login" d) as [v|]; [|split; [exact Hh | reflexivity]].
  unfold ret, f_write.
  destruct v as [| | | |t| |]; try (split; [exact Hh | reflexivity]).
  rewrite Hh. destruct (can_encode w t); [|split; [exact Hh | reflexivity]].
  destruct (Nat.leb _ (room w)); cbn [handle trace snd].
  - destruct (can_encode w NL); cbn [snd handle trace].
    + destruct (Nat.leb _ (room w)); cbn [snd handle trace];
        (split; [reflexivity|]); rewrite !existsb_app; cbn [existsb is_close_event];
        now rewrite !orb_false_r.
    + split; [reflexivity|]. rewrite existsb_app. cbn [existsb is_close_event].
      now rewrite !orb_false_r.
  - split; [reflexivity|]. rewrite existsb_app. cbn [existsb is_close_event].
    now rewrite !orb_false_r.
Qed.

Lemma for_each_keeps_open (w : World) (f : string) (items : list value) (s : State) :
  handle s = IsOpen ->
  handle (snd (for_each items (write_org w f) s)) = IsOpen /\
  existsb is_close_event (trace (snd (for_each items (write_org w f) s))) =
  existsb is_close_event (trace s).
Proof.
  revert s. induction items as [|o items IH]; intros s Hh.
  - split; [exact Hh | reflexivity].
  - cbn [for_each]. unfold bind.
    destruct (write_org_keeps_open w f o s Hh) as [H1 H2].
    destruct (write_org w f o s) as [[[]|e] s1]; cbn [snd] in *.
    + destruct (IH s1 H1) as [H3 H4]. split; [exact H3 | now rewrite H4].
    + split; assumption.
Qed.

(** ** The claims *)




(** C2. For every token and host, the program sends exactly one GET
    request, and its URL is [https://] + host + [/api/v3/organizations]. *)
Theorem exactly_one_get_request
        (w : World) (g : filesystem) (token host : string) :
  lookup "GHES_TOKEN" (environ w) = Some token ->
  lookup "GHES_HOST" (environ w) = Some host ->
  map fst (requests_of (trace (final w g))) =
  ["https://" ++ host ++ "/api/v3/organizations"].
Proof.
  intros Ht Hh. now rewrite (run_requests w g token host Ht Hh).
Qed.

(** C2 with host [example.com], on a machine without network: one request,
    to [https://example.com/api/v3/organizations]. *)
Lemma exactly_one_get_request_witness :
  map fst (requests_of (trace (final world_offline no_file))) =
  ["https://example.com/api/v3/organizations"].
Proof.
  exact (exactly_one_get_request world_offline no_file "abc123" "example.com"
           eq_refl eq_refl).
Defined.

(** C3. For every token, the request carries exactly two headers:
    [Authorization], equal to [token ] followed by the token, and [Accept],
    equal to [application/vnd.github.v3+json]. *)
Theorem request_headers_are_authorization_and_accept
        (w : World) (g : filesystem) (token host : string) :
  lookup "GHES_TOKEN" (environ w) = Some token ->
  lookup "GHES_HOST" (environ w) = Some host ->
  map snd (requests_of (trace (final w g))) =
  [[("Authorization", "token " ++ token);
    ("Accept", "application/vnd.github.v3+json")]].
Proof.
  intros Ht Hh. now rewrite (run_requests w g token host Ht Hh).
Qed.

(** C3 with token [abc123]: [Authorization: token abc123]. *)
Lemma request_headers_are_authorization_and_accept_witness :
  map snd (requests_of (trace (final world_two_orgs no_file))) =
  [[("Authorization", "token abc123");
    ("Accept", "application/vnd.github.v3+json")]].
Proof.
  exact (request_headers_are_authorization_and_accept world_two_orgs no_file
           "abc123" "example.com" eq_refl eq_refl).
Defined.



(** C4. When an element of the array has no [login] key (and the elements
    before it are well formed and written: their texts can be encoded and
    the disk has room for them), the run ends with a [KeyError] raised at
    that element: the file holds exactly the lines of the elements before
    it, nothing more is written, the file object is left open, and the exit
    status is not 0. *)
Theorem missing_login_aborts_the_writes
        (w : World) (g : filesystem) (token host : string) (r : Response)
        (pre post : list value) (d : list (string * value))
        (logins : list string) :
  lookup "GHES_TOKEN" (environ w) = Some token ->
  lookup "GHES_HOST" (environ w) = Some host ->
  server w (api_url host) (api_headers token) = Some r ->
  json_body r = Some (VList (pre ++ VDict d :: post)) ->
  map login_of pre = map Some logins ->
  forallb (can_encode w) (flat_map (fun l => [l; NL]) logins) = true ->
  lookup "login" d = None ->
  can_open w g OUTPUT_FILE = true ->
  String.length (lines logins) <= room w ->
  outcome w g = Raise KeyError /\
  exit_status (outcome w g) <> 0%Z /\
  output w g = Some (lines logins) /\
  writes_of (trace (final w g)) = flat_map (fun l => [l; NL]) logins /\
  handle (final w g) = IsOpen.
Proof.
  intros Ht Hh Hs Hj Hm He Hd Ho Hr. unfold can_open in Ho.
  destruct (open_target w g OUTPUT_FILE) as [p|] eqn:Hp; [|discriminate Ho].
  destruct (run_opened w g token host p r _ Ht Hh Hs Hj Hp) as [Hout Hfin].
  assert (Hb : forall cs n, item_run w (VDict d) cs n = (Raise KeyError, (cs, n))).
  { intros cs n. unfold item_run. now rewrite Hd. }
  destruct (script_stops_at w pre post (VDict d) logins KeyError Hm He Hr Hb)
    as (Hres & Hacc & Hcl).
  repeat split.
  - now rewrite Hout.
  - rewrite Hout, Hres. discriminate.
  - unfold output. rewrite (finished_read w g token host p _ _ Hp Hfin), Hacc.
    rewrite join_texts. now rewrite take_all.
  - now rewrite (finished_writes w g token host p _ _ Hfin).
  - destruct Hfin as (Hhandle & _). now rewrite Hhandle, Hcl.
Qed.

(** C4 on the array [org-one], a record without [login], [org-three]: only
    the line of [org-one] is in the file. *)
Lemma missing_login_aborts_the_writes_witness :
  outcome world_missing_login no_file = Raise KeyError /\
  output world_missing_login no_file = Some ("org-one" ++ NL).
Proof.
  assert (Hr : String.length (lines ["org-one"]) <= room world_missing_login)
    by (apply Nat.leb_le; reflexivity).
  pose proof (missing_login_aborts_the_writes world_missing_login no_file
                "abc123" "example.com"
                (mkResponse 200
                   (Some (VList [org "org-one"; VDict [("id", VInt 7)];
                                 org "org-three"])))
                [org "org-one"] [org "org-three"] [("id", VInt 7)] ["org-one"]
                eq_refl eq_refl eq_refl eq_refl eq_refl eq_refl eq_refl eq_refl Hr)
    as (H1 & _ & H2 & _).
  split; assumption.
Defined.

(** C5, as stated, fails: with [GHES_TOKEN] set to the empty string the
    header is built ([token ] followed by nothing), the URL is formed, the
    request is issued and, on an answer [[]], the run ends normally. *)
Lemma empty_token_is_not_rejected :
  config_absent_or_empty world_empty_token = true /\
  outcome world_empty_token no_file = Ok tt /\
  exit_status (outcome world_empty_token no_file) = 0%Z /\
  requests_of (trace (final world_empty_token no_file)) =
  [("https://example.com/api/v3/organizations",
    [("Authorization", "token "); ("Accept", "application/vnd.github.v3+json")])].
Proof. repeat split. Qed.

(** C5, amended.  When either variable is absent from the environment, the
    run fails at once with a [TypeError], raised by the concatenation that
    builds the [Authorization] header (token) or that forms the URL (host):
    nothing has been done by then, [requests.get] not called and no file
    opened or changed, and the exit status is not 0.  A variable that is
    set, even to the empty string, passes both concatenations, and
    [requests.get] is called with what they give. *)
Theorem unset_variable_fails_before_the_request (w : World) (g : filesystem) :
  (lookup "GHES_TOKEN" (environ w) = None \/
   lookup "GHES_HOST" (environ w) = None ->
   outcome w g = Raise TypeError /\
   exit_status (outcome w g) <> 0%Z /\
   final w g = init g /\
   requests_of (trace (final w g)) = [] /\
   fs (final w g) = g) /\
  (forall token host,
     lookup "GHES_TOKEN" (environ w) = Some token ->
     lookup "GHES_HOST" (environ w) = Some host ->
     requests_of (trace (final w g)) =
     [("https://" ++ host ++ "/api/v3/organizations",
       [("Authorization", "token " ++ token);
        ("Accept", "application/vnd.github.v3+json")])]).
Proof.
  split.
  - intros H. assert (E : run w g = (Raise TypeError, init g)).
    { pose proof (run_spec w g) as R.
      destruct (lookup "GHES_TOKEN" (environ w)) as [token|] eqn:Ht.
      - destruct H as [H|H]; [discriminate H|]. now rewrite H in R.
      - destruct (lookup "GHES_HOST" (environ w)); exact R. }
    unfold outcome, final. rewrite E. simpl. repeat split. discriminate.
  - intros token host Ht Hh. exact (run_requests w g token host Ht Hh).
Qed.

(** C5, amended, without [GHES_TOKEN]: a [TypeError], and the old file is
    still there; with [GHES_TOKEN] empty: the call is made. *)
Lemma unset_variable_fails_before_the_request_witness :
  (outcome world_no_token (disk_with "stale") = Raise TypeError /\
   output world_no_token (disk_with "stale") = Some "stale") /\
  requests_of (trace (final world_empty_token no_file)) =
  [("https://example.com/api/v3/organizations",
    [("Authorization", "token "); ("Accept", "application/vnd.github.v3+json")])].
Proof.
  split.
  - destruct (proj1 (unset_variable_fails_before_the_request world_no_token
                       (disk_with "stale")) (or_introl eq_refl))
      as (H1 & _ & H2 & _).
    split; [exact H1 | unfold output; now rewrite H2].
  - exact (proj2 (unset_variable_fails_before_the_request world_empty_token
                    no_file) "" "example.com" eq_refl eq_refl).
Defined.



(** C8, as stated, fails: an answer with status 401 whose body is the JSON
    object [{}] is not an array of objects with [login], yet nothing fails;
    the loop has no key to visit, the run ends normally and leaves an empty
    file. *)
Lemma empty_object_body_does_not_fail :
  decoded world_empty_object = Some (VDict []) /\
  is_org_array (VDict []) = false /\
  outcome world_empty_object no_file = Ok tt /\
  exit_status (outcome world_empty_object no_file) = 0%Z /\
  output world_empty_object no_file = Some "".
Proof. repeat split. Qed.

(** C8, amended.  The script never looks at the status: a run is the same
    whatever status the answer carries, and the body is decoded as JSON in
    every case.  A body that is not JSON fails at the decoding, before the
    file is touched.  A body that is JSON but not an array of objects with
    [login] fails with an uncaught [TypeError], [KeyError],
    [UnicodeEncodeError] or [OSError] (from opening the file, iterating,
    reading the field, writing or closing), with one exception: the empty
    object and the empty string give the loop nothing to visit, the run
    ends normally and leaves an empty file. *)
Theorem status_is_never_checked
        (w : World) (g : filesystem) (token host : string) (r : Response) :
  lookup "GHES_TOKEN" (environ w) = Some token ->
  lookup "GHES_HOST" (environ w) = Some host ->
  server w (api_url host) (api_headers token) = Some r ->
  (forall st, run (with_status st w) g = run w g) /\
  (json_body r = None ->
   outcome w g = Raise JSONDecodeError /\ fs (final w g) = g) /\
  (forall v, json_body r = Some v -> is_org_array v = false ->
     (exists e, outcome w g = Raise e /\
                (e = TypeError \/ e = KeyError \/ e = UnicodeEncodeError \/
                 e = OSError)) \/
     ((v = VDict [] \/ v = VStr "") /\
      outcome w g = Ok tt /\ output w g = Some "")).
Proof.
  intros Ht Hh Hs. split; [|split].
  - intros st. apply run_ignores_status.
  - intros Hj. pose proof (run_spec w g) as R. rewrite Ht, Hh, Hs, Hj in R.
    unfold outcome, final. rewrite R. split; reflexivity.
  - intros v Hj Hv.
    destruct (open_target w g OUTPUT_FILE) as [p|] eqn:Hp.
    + destruct (run_opened w g token host p r v Ht Hh Hs Hj Hp) as [Hout Hfin].
      destruct (script_result_cases w v) as [Hok | (e & He & Hcls)].
      * right. assert (Hrun : outcome w g = Ok tt) by now rewrite Hout.
        destruct (run_success_inv w g Hrun)
          as (token' & host' & r' & v' & p' & items & logins
              & Ht' & Hh' & Hs' & Hj' & _ & Hi & Hm & Henc & Hr).
        rewrite Ht in Ht'. injection Ht' as <-.
        rewrite Hh in Hh'. injection Hh' as <-.
        rewrite Hs in Hs'. injection Hs' as <-.
        rewrite Hj in Hj'. injection Hj' as <-.
        destruct (items_well_formed_shape v items logins Hi Hm Hv) as [Hshape ->].
        destruct (script_well_formed w v items [] Hi Hm Henc Hr) as (_ & Hacc & _).
        split; [exact Hshape|]. split; [exact Hrun|].
        unfold output. now rewrite (finished_read w g token host p _ _ Hp Hfin), Hacc.
      * left. exists e. split; [now rewrite Hout | exact Hcls].
    + left. exists OSError. pose proof (run_spec w g) as R.
      rewrite Ht, Hh, Hs, Hj, Hp in R. unfold outcome. rewrite R. auto 6.
Qed.

(** C8 on an answer with status 502 and a body that is not JSON: the run
    stops at the decoding and the old file is still there. *)
Lemma status_is_never_checked_witness :
  run (with_status 200 world_not_json) (disk_with "stale") =
  run world_not_json (disk_with "stale") /\
  outcome world_not_json (disk_with "stale") = Raise JSONDecodeError /\
  output world_not_json (disk_with "stale") = Some "stale".
Proof.
  pose proof (status_is_never_checked world_not_json (disk_with "stale")
                "abc123" "example.com" (mkResponse 502 None)
                eq_refl eq_refl eq_refl) as (H1 & H2 & _).
  destruct (H2 eq_refl) as [H3 H4].
  split; [exact (H1 200%Z) | split; [exact H3 | unfold output; now rewrite H4]].
Defined.

(** C9. The file is closed by the last line of the script and by nothing
    else.  A run that ends normally has closed the file, as its last action
    and only once.  When the loop raises, the last line is not reached: the
    script ends there with the file object open and nothing has closed it.
    So a run that ends with an exception has not closed the file, unless
    the exception is the [OSError] of the close itself, whose flush the
    disk refused: the file is closed all the same then. *)
Theorem file_closed_only_on_success (w : World) (g : filesystem) :
  match outcome w g with
  | Ok _ =>
      handle (final w g) = IsClosed /\
      exists t p, trace (final w g) = (t ++ [EvClose p])%list /\
                  existsb is_close_event t = false
  | Raise e =>
      (existsb is_close_event (trace (final w g)) = false /\
       handle (final w g) =
       (if existsb is_open_event (trace (final w g)) then IsOpen else NotOpened))
      \/
      (e = OSError /\
       handle (final w g) = IsClosed /\
       exists t p, trace (final w g) = (t ++ [EvClose p])%list /\
                   existsb is_close_event t = false)
  end /\
  (forall f items s e s',
      handle s = IsOpen ->
      for_each items (write_org w f) s = (Raise e, s') ->
      (for_each items (write_org w f) ;;; f_close w f) s = (Raise e, s') /\
      handle s' = IsOpen /\
      existsb is_close_event (trace s') = existsb is_close_event (trace s)).
Proof.
  split.
  - unfold outcome, final. pose proof (run_spec w g) as R.
    destruct (lookup "GHES_TOKEN" (environ w)) as [token|].
    2:{ destruct (lookup "GHES_HOST" (environ w)); rewrite R; left; split; reflexivity. }
    destruct (lookup "GHES_HOST" (environ w)) as [host|];
      [|rewrite R; left; split; reflexivity].
    destruct (server w _ _) as [r|]; [|rewrite R; left; split; reflexivity].
    destruct (json_body r) as [v|]; [|rewrite R; left; split; reflexivity].
    destruct (open_target w g OUTPUT_FILE) as [p|];
      [|rewrite R; left; split; reflexivity].
    destruct R as (Hout & Hh & Htr & _). rewrite Hout, Hh, Htr.
    unfold script_result, closes.
    assert (Hnc : existsb is_close_event
                    (EvGet (api_url host) (api_headers token)
                       :: EvOpen OUTPUT_FILE "w" :: map (EvWrite p) (accepted w v))
                  = false).
    { cbn [existsb is_close_event orb].
      apply existsb_map_write. reflexivity. }
    destruct (fst (loop_of w v)) as [[]|e].
    + destruct (Nat.leb _ (room w)).
      * split; [reflexivity|]. eexists; exists p. split; [|exact Hnc]. reflexivity.
      * right. split; [reflexivity|]. split; [reflexivity|].
        eexists; exists p. split; [|exact Hnc]. reflexivity.
    + left. rewrite app_nil_r, Hnc. split; reflexivity.
  - intros f items s e s' Hh E. unfold bind. rewrite E.
    destruct (for_each_keeps_open w f items s Hh) as [H1 H2].
    rewrite E in H1, H2. auto.
Qed.

(** C9 on a record without [login]: the loop raises, the close is not
    run, the file object stays open. *)
Lemma file_closed_only_on_success_witness :
  (for_each [VDict [("id", VInt 7)]] (write_org world_missing_login OUTPUT_FILE) ;;;
   f_close world_missing_login OUTPUT_FILE)
    (opened no_file "abc123" "example.com" OUTPUT_FILE) =
  (Raise KeyError, opened no_file "abc123" "example.com" OUTPUT_FILE) /\
  handle (final world_missing_login no_file) = IsOpen.
Proof.
  split.
  - exact (proj1 (proj2 (file_closed_only_on_success world_missing_login no_file)
                    OUTPUT_FILE [VDict [("id", VInt 7)]]
                    (opened no_file "abc123" "example.com" OUTPUT_FILE)
                    KeyError
                    (opened no_file "abc123" "example.com" OUTPUT_FILE)
                    eq_refl eq_refl)).
  - reflexivity.
Defined.

(** C10. The file is opened only once the request has been answered and
    the body decoded: a run that fails at the request or at the decoding
    has not opened the file, and the disk is as it was. *)
Theorem file_untouched_when_request_or_decoding_fails
        (w : World) (g : filesystem) :
  outcome w g = Raise RequestException \/ outcome w g = Raise JSONDecodeError ->
  fs (final w g) = g /\
  handle (final w g) = NotOpened /\
  existsb is_open_event (trace (final w g)) = false.
Proof.
  unfold outcome, final. pose proof (run_spec w g) as R.
  destruct (lookup "GHES_TOKEN" (environ w)) as [token|].
  2:{ destruct (lookup "GHES_HOST" (environ w)); rewrite R;
        intros [H|H]; discriminate H. }
  destruct (lookup "GHES_HOST" (environ w)) as [host|];
    [|rewrite R; intros [H|H]; discriminate H].
  destruct (server w _ _) as [r|]; [|rewrite R; intros _; repeat split].
  destruct (json_body r) as [v|]; [|rewrite R; intros _; repeat split].
  destruct (open_target w g OUTPUT_FILE) as [p|];
    [|rewrite R; intros [H|H]; discriminate H].
  destruct R as [Hout _]. rewrite Hout.
  destruct (script_result_cases w v) as [Hok | (e & He & Hcls)].
  - rewrite Hok. intros [H|H]; discriminate H.
  - rewrite He. intros [H|H]; injection H as ->;
      destruct Hcls as [Hc|[Hc|[Hc|Hc]]]; discriminate Hc.
Qed.

(** C10 without network, and with a body that is not JSON: the old file is
    still there. *)
Lemma file_untouched_when_request_or_decoding_fails_witness :
  output world_offline (disk_with "stale") = Some "stale" /\
  output world_not_json (disk_with "stale") = Some "stale".
Proof.
  split; unfold output.
  - now rewrite (proj1 (file_untouched_when_request_or_decoding_fails
                          world_offline (disk_with "stale") (or_introl eq_refl))).
  - now rewrite (proj1 (file_untouched_when_request_or_decoding_fails
                          world_not_json (disk_with "stale") (or_intror eq_refl))).
Defined.

(** ** More properties of the script *)



(** X3. Running the script again in the same world changes nothing more:
    the disk after two runs is the disk after one. *)
Theorem second_run_changes_nothing (w : World) (g : filesystem) (p : string) :
  fs (final w (fs (final w g))) p = fs (final w g) p.
Proof.
  unfold final. pose proof (run_spec w g) as R.
  pose proof (run_spec w (fs (snd (run w g)))) as R2.
  destruct (lookup "GHES_TOKEN" (environ w)) as [token|].
  2:{ destruct (lookup "GHES_HOST" (environ w)); rewrite R in R2 |- *;
        cbn [snd fs init] in *; now rewrite R2. }
  destruct (lookup "GHES_HOST" (environ w)) as [host|].
  2:{ rewrite R in R2 |- *. cbn [snd fs init] in *. now rewrite R2. }
  destruct (server w _ _) as [r|].
  2:{ rewrite R in R2 |- *. cbn [snd fs requested] in *. now rewrite R2. }
  destruct (json_body r) as [v|].
  2:{ rewrite R in R2 |- *. cbn [snd fs requested] in *. now rewrite R2. }
  destruct (open_target w g OUTPUT_FILE) as [p0|] eqn:Hp.
  2:{ rewrite R in R2 |- *. cbn [snd fs requested] in *. rewrite Hp in R2.
      now rewrite R2. }
  destruct R as (_ & _ & _ & Hf & Hg).
  rewrite (open_target_stable w g (fs (snd (run w g))) OUTPUT_FILE p0 _ Hp Hg Hf)
    in R2.
  destruct R2 as (_ & _ & _ & Hf2 & Hg2).
  destruct (String.eqb p p0) eqn:E.
  - apply String.eqb_eq in E. subst p. now rewrite Hf2, Hf.
  - now apply Hg2.
Qed.

(** X4. Once the file has been opened, it holds after the run the texts
    the file object has accepted, one after the other, as far as the disk
    had room for them, however the run ends; and as long as it has not
    been opened the disk is as it was. *)
Theorem file_is_the_texts_written (w : World) (g : filesystem) :
  if existsb is_open_event (trace (final w g))
  then output w g =
       Some (take (room w) (join (writes_of (trace (final w g)))))
  else fs (final w g) = g.
Proof.
  unfold output, final. pose proof (run_spec w g) as R.
  destruct (lookup "GHES_TOKEN" (environ w)) as [token|].
  2:{ destruct (lookup "GHES_HOST" (environ w)); now rewrite R. }
  destruct (lookup "GHES_HOST" (environ w)) as [host|]; [|now rewrite R].
  destruct (server w _ _) as [r|]; [|now rewrite R].
  destruct (json_body r) as [v|]; [|now rewrite R].
  destruct (open_target w g OUTPUT_FILE) as [p|] eqn:Hp; [|now rewrite R].
  destruct R as [_ R].
  rewrite (finished_opened w g token host p v _ R),
    (finished_writes w g token host p v _ R).
  exact (finished_read w g token host p v _ Hp R).
Qed.

(** X5. The order of the actions of any run: nothing, or the request
    alone, or the request, the opening of [organizations.txt] in mode [w]
    and writes to the file it leads to.  The close comes last; it is there
    when the run ends normally, and in a run that ends with an exception
    only when the exception is the [OSError] of the close itself.  So there
    is never a second request, never a write before the opening, and never
    a write after the close. *)
Theorem actions_are_ordered (w : World) (g : filesystem) :
  match outcome w g with
  | Ok _ =>
      exists u h p ws,
        trace (final w g) =
        (EvGet u h :: EvOpen OUTPUT_FILE "w" :: map (EvWrite p) ws
           ++ [EvClose p])%list
  | Raise e =>
      trace (final w g) = [] \/
      (exists u h, trace (final w g) = [EvGet u h]) \/
      (exists u h p ws,
          trace (final w g) =
          EvGet u h :: EvOpen OUTPUT_FILE "w" :: map (EvWrite p) ws) \/
      (e = OSError /\
       exists u h p ws,
         trace (final w g) =
         (EvGet u h :: EvOpen OUTPUT_FILE "w" :: map (EvWrite p) ws
            ++ [EvClose p])%list)
  end.
Proof.
  unfold outcome, final. pose proof (run_spec w g) as R.
  destruct (lookup "GHES_TOKEN" (environ w)) as [token|].
  2:{ destruct (lookup "GHES_HOST" (environ w)); rewrite R; now left. }
  destruct (lookup "GHES_HOST" (environ w)) as [host|]; [|rewrite R; now left].
  destruct (server w _ _) as [r|];
    [|rewrite R; right; left; eexists; eexists; reflexivity].
  destruct (json_body r) as [v|];
    [|rewrite R; right; left; eexists; eexists; reflexivity].
  destruct (open_target w g OUTPUT_FILE) as [p|];
    [|rewrite R; right; left; eexists; eexists; reflexivity].
  destruct R as (Hout & _ & Htr & _). rewrite Hout, Htr.
  unfold script_result, closes.
  destruct (fst (loop_of w v)) as [[]|e].
  - destruct (Nat.leb _ (room w)).
    + eexists; eexists; exists p, (accepted w v). reflexivity.
    + right; right; right. split; [reflexivity|].
      eexists; eexists; exists p, (accepted w v). reflexivity.
  - right; right; left. eexists; eexists; exists p, (accepted w v).
    now rewrite app_nil_r.
Qed.

(** X6. An element that is not an object, or whose [login] is not a
    string, stops the run with a [TypeError] (from the subscript or from
    the argument of [write]), the elements before it being well formed and
    written: the file holds their lines, nothing is written for the
    element or after it, and the file object stays open. *)
Theorem ill_typed_element_aborts_the_writes
        (w : World) (g : filesystem) (token host : string) (r : Response)
        (pre post : list value) (bad : value) (logins : list string) :
  lookup "GHES_TOKEN" (environ w) = Some token ->
  lookup "GHES_HOST" (environ w) = Some host ->
  server w (api_url host) (api_headers token) = Some r ->
  json_body r = Some (VList (pre ++ bad :: post)) ->
  map login_of pre = map Some logins ->
  forallb (can_encode w) (texts logins) = true ->
  login_of bad = None ->
  (forall d, bad = VDict d -> lookup "login" d <> None) ->
  can_open w g OUTPUT_FILE = true ->
  String.length (lines logins) <= room w ->
  outcome w g = Raise TypeError /\
  output w g = Some (lines logins) /\
  writes_of (trace (final w g)) = texts logins /\
  handle (final w g) = IsOpen.
Proof.
  intros Ht Hh Hs Hj Hm He Hl Hd Ho Hr. unfold can_open in Ho.
  destruct (open_target w g OUTPUT_FILE) as [p|] eqn:Hp; [|discriminate Ho].
  destruct (run_opened w g token host p r _ Ht Hh Hs Hj Hp) as [Hout Hfin].
  assert (Hb : forall cs n, item_run w bad cs n = (Raise TypeError, (cs, n))).
  { intros cs n. unfold item_run.
    destruct bad as [| | | | | |d]; try reflexivity. simpl in Hl.
    destruct (lookup "login" d) as [x|] eqn:E; [|now elim (Hd d eq_refl)].
    destruct x; try reflexivity. discriminate Hl. }
  destruct (script_stops_at w pre post bad logins TypeError Hm He Hr Hb)
    as (Hres & Hacc & Hcl).
  repeat split.
  - now rewrite Hout.
  - unfold output. rewrite (finished_read w g token host p _ _ Hp Hfin), Hacc.
    rewrite join_texts. now rewrite take_all.
  - now rewrite (finished_writes w g token host p _ _ Hfin).
  - destruct Hfin as (Hhandle & _). now rewrite Hhandle, Hcl.
Qed.

(** X6 on [org-one], a record whose [login] is [null], [org-three]. *)
Lemma ill_typed_element_aborts_the_writes_witness :
  outcome world_null_login no_file = Raise TypeError /\
  output world_null_login no_file = Some ("org-one" ++ NL).
Proof.
  assert (Hd : forall d, VDict [("login", VNone)] = VDict d ->
                         lookup "login" d <> None).
  { intros d E. injection E as <-. discriminate. }
  assert (Hr : String.length (lines ["org-one"]) <= room world_null_login)
    by (apply Nat.leb_le; reflexivity).
  pose proof (ill_typed_element_aborts_the_writes world_null_login no_file
                "abc123" "example.com"
                (mkResponse 200
                   (Some (VList [org "org-one"; VDict [("login", VNone)];
                                 org "org-three"])))
                [org "org-one"] [org "org-three"] (VDict [("login", VNone)])
                ["org-one"] eq_refl eq_refl eq_refl eq_refl eq_refl eq_refl
                eq_refl Hd eq_refl Hr) as (H1 & H2 & _).
  split; assumption.
Defined.



(** X8. When the disk has no room for all the lines of an array of
    well-formed records, the run ends with an [OSError], raised by the
    write at which the file object hands over more than the disk takes, or
    else by the close, and the file holds the lines as far as the disk
    took them: the first characters of login 1, line feed, login 2, line
    feed, ..., up to the room of the disk.  The file is closed exactly
    when the close was reached. *)
Theorem full_disk_leaves_a_prefix
        (w : World) (g : filesystem) (token host : string) (r : Response)
        (items : list value) (logins : list string) :
  lookup "GHES_TOKEN" (environ w) = Some token ->
  lookup "GHES_HOST" (environ w) = Some host ->
  server w (api_url host) (api_headers token) = Some r ->
  json_body r = Some (VList items) ->
  map login_of items = map Some logins ->
  forallb (can_encode w) (texts logins) = true ->
  can_open w g OUTPUT_FILE = true ->
  room w < String.length (lines logins) ->
  outcome w g = Raise OSError /\
  output w g = Some (take (room w) (lines logins)) /\
  handle (final w g) =
  (if existsb is_close_event (trace (final w g)) then IsClosed else IsOpen).
Proof.
  intros Ht Hh Hs Hj Hm He Ho Hr. unfold can_open in Ho.
  destruct (open_target w g OUTPUT_FILE) as [p|] eqn:Hp; [|discriminate Ho].
  destruct (run_opened w g token host p r _ Ht Hh Hs Hj Hp) as [Hout Hfin].
  unfold output. rewrite Hout, (finished_read w g token host p _ _ Hp Hfin).
  destruct Hfin as (Hhandle & Htr & _). rewrite Hhandle, Htr.
  assert (Hnc : existsb is_close_event
                  (map (EvWrite p) (accepted w (VList items))) = false)
    by (apply existsb_map_write; reflexivity).
  cbn [existsb is_close_event orb]. rewrite existsb_app, Hnc.
  unfold script_result, accepted, closes, loop_of. cbn [items_of].
  destruct (loop_run_well_formed w items logins [] 0 Hm He
              (Nat.le_0_l _) (Nat.le_0_l _))
    as [(n' & E & _) | (ts & rest & n' & E & H1 & H2 & H3)];
    rewrite E; cbn [fst snd app].
  - rewrite join_texts. apply Nat.leb_gt in Hr. rewrite Hr. repeat split.
  - repeat split. cbn [app] in H3.
    rewrite <- join_texts, H1, join_app. f_equal.
    symmetry. apply take_app_le. lia.
Qed.

(** X8 on two organizations and a disk that takes ten characters: the
    file ends in the middle of the second line. *)
Lemma full_disk_leaves_a_prefix_witness :
  outcome world_disk_full no_file = Raise OSError /\
  output world_disk_full no_file = Some ("org-one" ++ NL ++ "or").
Proof.
  assert (Hr : room world_disk_full < String.length (lines ["org-one"; "org-two"]))
    by (apply Nat.ltb_lt; reflexivity).
  pose proof (full_disk_leaves_a_prefix world_disk_full no_file
                "abc123" "example.com" (mkResponse 200 (Some two_orgs))
                [org "org-one"; org "org-two"] ["org-one"; "org-two"]
                eq_refl eq_refl eq_refl eq_refl eq_refl eq_refl eq_refl Hr)
    as (H1 & H2 & _).
  split; assumption.
Defined.

(** X9. The run ends normally exactly when both variables are set, the
    server answers, the body decodes to something whose items are all
    records with a string [login], the file can be opened, every text to
    write can be encoded, and the disk has room for all the lines. *)
Theorem run_succeeds_exactly_when (w : World) (g : filesystem) :
  outcome w g = Ok tt <->
  exists token host r v items logins,
    lookup "GHES_TOKEN" (environ w) = Some token /\
    lookup "GHES_HOST" (environ w) = Some host /\
    server w (api_url host) (api_headers token) = Some r /\
    json_body r = Some v /\
    items_of v = Some items /\
    map login_of items = map Some logins /\
    can_open w g OUTPUT_FILE = true /\
    forallb (can_encode w) (texts logins) = true /\
    String.length (lines logins) <= room w.
Proof.
  split.
  - intros H.
    destruct (run_success_inv w g H)
      as (token & host & r & v & p & items & logins
          & Ht & Hh & Hs & Hj & Hp & Hi & Hm & He & Hr).
    exists token, host, r, v, items, logins.
    unfold can_open. rewrite Hp. auto 10.
  - intros (token & host & r & v & items & logins
            & Ht & Hh & Hs & Hj & Hi & Hm & Ho & He & Hr).
    unfold can_open in Ho.
    destruct (open_target w g OUTPUT_FILE) as [p|] eqn:Hp; [|discriminate Ho].
    destruct (run_opened w g token host p r v Ht Hh Hs Hj Hp) as [Hout _].
    destruct (script_well_formed w v items logins Hi Hm He Hr) as (Hres & _).
    now rewrite Hout.
Qed.

(** X9 on two organizations: every condition holds, the run ends normally. *)
Lemma run_succeeds_exactly_when_witness :
  outcome world_two_orgs (disk_with "stale") = Ok tt.
Proof.
  apply (proj2 (run_succeeds_exactly_when world_two_orgs (disk_with "stale"))).
  exists "abc123", "example.com", (mkResponse 200 (Some two_orgs)), two_orgs,
    [org "org-one"; org "org-two"], ["org-one"; "org-two"].
  repeat split. apply Nat.leb_le. reflexivity.
Defined.

(** X11. When the file cannot be opened the request has been made all the
    same: the run ends with an [OSError] after one call of [requests.get],
    and the disk is as it was. *)
Theorem refused_open_comes_after_the_request
        (w : World) (g : filesystem) (token host : string) (r : Response)
        (v : value) :
  lookup "GHES_TOKEN" (environ w) = Some token ->
  lookup "GHES_HOST" (environ w) = Some host ->
  server w (api_url host) (api_headers token) = Some r ->
  json_body r = Some v ->
  can_open w g OUTPUT_FILE = false ->
  outcome w g = Raise OSError /\
  fs (final w g) = g /\
  handle (final w g) = NotOpened /\
  trace (final w g) = [EvGet (api_url host) (api_headers token)].
Proof.
  intros Ht Hh Hs Hj Ho. unfold can_open in Ho.
  destruct (open_target w g OUTPUT_FILE) as [p|] eqn:Hp; [discriminate Ho|].
  pose proof (run_spec w g) as R. rewrite Ht, Hh, Hs, Hj, Hp in R.
  unfold outcome, final. rewrite R. repeat split.
Qed.

(** X11 on a disk the process may not write: the old file is still
    there. *)
Lemma refused_open_comes_after_the_request_witness :
  outcome world_read_only (disk_with "stale") = Raise OSError /\
  output world_read_only (disk_with "stale") = Some "stale".
Proof.
  pose proof (refused_open_comes_after_the_request world_read_only
                (disk_with "stale") "abc123" "example.com"
                (mkResponse 200 (Some two_orgs)) two_orgs
                eq_refl eq_refl eq_refl eq_refl eq_refl) as (H1 & H2 & _).
  split; [exact H1 | unfold output; now rewrite H2].
Defined.

(** ** Runs worked out *)

(** The run on two organizations, action by action. *)
Example run_two_orgs :
  trace (final world_two_orgs no_file) =
  [EvGet "https://example.com/api/v3/organizations"
         [("Authorization", "token abc123");
          ("Accept", "application/vnd.github.v3+json")];
   EvOpen "organizations.txt" "w";
   EvWrite "organizations.txt" "org-one";
   EvWrite "organizations.txt" NL;
   EvWrite "organizations.txt" "org-two";
   EvWrite "organizations.txt" NL;
   EvClose "organizations.txt"] /\
  handle (final world_two_orgs no_file) = IsClosed.
Proof. split; reflexivity. Qed.

(** The run on [org-one], a record without [login], [org-three]: the file
    is opened and never closed, and the flush at the exit brings the first
    line to the disk. *)
Example run_missing_login :
  outcome world_missing_login no_file = Raise KeyError /\
  trace (final world_missing_login no_file) =
  [EvGet "https://example.com/api/v3/organizations"
         [("Authorization", "token abc123");
          ("Accept", "application/vnd.github.v3+json")];
   EvOpen "organizations.txt" "w";
   EvWrite "organizations.txt" "org-one";
   EvWrite "organizations.txt" NL] /\
  handle (final world_missing_login no_file) = IsOpen /\
  fs (snd (script world_missing_login (init no_file))) OUTPUT_FILE =
  Some (File "" false) /\
  output world_missing_login no_file = Some ("org-one" ++ NL).
Proof. repeat split. Qed.

(** A disk with room for ten characters and a file object that keeps
    everything until the close: the four writes return, the close raises,
    and the file is closed. *)
Example run_disk_full_at_close :
  outcome world_disk_full no_file = Raise OSError /\
  writes_of (trace (final world_disk_full no_file)) =
  ["org-one"; NL; "org-two"; NL] /\
  handle (final world_disk_full no_file) = IsClosed /\
  output world_disk_full no_file = Some ("org-one" ++ NL ++ "or").
Proof. repeat split. Qed.

(** The same disk with a file object that hands over every text at once:
    the third write raises, the close is not reached, and the file is the
    same. *)
Example run_disk_full_at_write :
  let w := mkWorld env_example (fun _ _ => Some (mkResponse 200 (Some two_orgs)))
                   (fun _ => true) (fun _ => true) 10
                   (fun cs => String.length (join cs)) in
  outcome w no_file = Raise OSError /\
  writes_of (trace (final w no_file)) = ["org-one"; NL; "org-two"] /\
  handle (final w no_file) = IsOpen /\
  output w no_file = Some ("org-one" ++ NL ++ "or").
Proof. repeat split. Qed.

(** [organizations.txt] is a directory: the open is refused. *)
Example run_on_a_directory :
  let g : filesystem := fun p => if String.eqb p OUTPUT_FILE then Some Dir else None in
  can_open world_two_orgs g OUTPUT_FILE = false /\
  outcome world_two_orgs g = Raise OSError /\
  fs (final world_two_orgs g) OUTPUT_FILE = Some Dir.
Proof. repeat split. Qed.

(** [organizations.txt] is a read-only file: the open is refused. *)
Example run_on_a_read_only_file :
  let g : filesystem :=
    fun p => if String.eqb p OUTPUT_FILE then Some (File "stale" true) else None in
  can_open world_two_orgs g OUTPUT_FILE = false /\
  outcome world_two_orgs g = Raise OSError /\
  output world_two_orgs g = Some "stale".
Proof. repeat split. Qed.

(** A body that is a number cannot be iterated: the file has been
    truncated by then. *)
Example run_number_body :
  outcome (world_of env_example 200 (Some (VInt 5))) (disk_with "stale") =
  Raise TypeError /\
  output (world_of env_example 200 (Some (VInt 5))) (disk_with "stale") = Some "".
Proof. split; reflexivity. Qed.

(** A login that is not a string fails at the write. *)
Example run_login_not_a_string :
  outcome (world_of env_example 200 (Some (VList [VDict [("login", VInt 5)]])))
          no_file = Raise TypeError.
Proof. reflexivity. Qed.

(** What a handler would take: the decoding error is also a
    [RequestException], an [OSError] and a [ValueError], and the error of
    an unencodable text a [ValueError]; so the decoding error of
    [world_not_json] and the refusal of [world_read_only] would both be
    taken by a handler for [OSError]. *)
Example handlers :
  isinstance JSONDecodeError RequestException = true /\
  isinstance JSONDecodeError OSError = true /\
  isinstance JSONDecodeError ValueError = true /\
  isinstance RequestException OSError = true /\
  isinstance UnicodeEncodeError ValueError = true /\
  isinstance OSError RequestException = false /\
  (forall e, outcome world_not_json no_file = Raise e -> isinstance e OSError = true) /\
  (forall e, outcome world_read_only no_file = Raise e -> isinstance e OSError = true).
Proof.
  repeat split; intros e E; injection E as <-; reflexivity.
Qed.
